(** * The Spotify OAuth2 authenticator (package [internal/auth])

    A shallow embedding of [internal/auth/authenticator.go] and of the
    functional options of the same package, followed by the properties of
    construction, authorization-URL generation and code exchange.

    Conventions of the embedding.
    - A Go string is a [string]; a [time.Duration] (an int64 count of
      nanoseconds) is a [Z].
    - A pointer that may be nil is an [option]; the struct behind
      [Authenticator.config] is owned by the authenticator, so assignments
      through it are modelled by returning the updated [Authenticator].
    - A Go result pair [(T, error)] in which exactly one side is non-nil is
      a sum [T + error].
    - A slice of strings is a [list string]; a caller does not write to
      a slice after it has passed it to the authenticator.
    - [Token], [Client] and [TokenSource] assign no field of their
      receiver, so they return no authenticator; [AuthURL] does, so it
      returns the authenticator after the call next to its URL.
    - The packages the authenticator calls but does not contain
      ([golang.org/x/oauth2], [net/http], [net/url], [context]) appear as
      data types with the fields the code reads or writes, and as an
      interface ([oauth2.Library]) for the operations the code delegates
      to.  The token endpoint lives in an explicit [World] that the code
      exchange reads and advances. *)

From Stdlib Require Import ZArith Ascii String List.
From stdpp Require Import base decidable option list sorting strings gmap.
Import ListNotations.

(** ** Types left to the platform *)

(** Interface values and external state that the authenticator only stores
    and passes on. *)
Class Platform := {
  RoundTripper : Type;     (* implementations of http.RoundTripper *)
  CookieJar : Type;        (* implementations of http.CookieJar *)
  RedirectPolicy : Type;   (* values of http.Client.CheckRedirect *)
  BaseContext : Type;      (* a context.Context: deadline, cancellation, other values *)
  World : Type;            (* the network, with the provider's token endpoint *)
  TokenSource : Type       (* implementations of oauth2.TokenSource *)
}.

(** ** Package [os]: the process environment *)

Module os.

(** The environment maps variable names to values; [Getenv] yields the
    empty string for a variable that is not set. *)
Definition Getenv (env : gmap string string) (key : string) : string :=
  match env !! key with
  | Some v => v
  | None => ""
  end.

End os.

(** ** Package [errors] and [fmt.Errorf] *)

Module errors.

Inductive error : Type :=
| errorString (text : string)            (* a value made by errors.New *)
| foreignError (text : string)           (* an error of oauth2 or net/http *)
| wrapError (msg : string) (err : error) (* fmt.Errorf with one %w verb *).

#[export] Instance error_eq_dec : EqDecision error.
Proof. solve_decision. Defined.

(** The [Error()] method. *)
Definition Error (e : error) : string :=
  match e with
  | errorString s => s
  | foreignError s => s
  | wrapError msg _ => msg
  end.

Definition Unwrap (e : error) : option error :=
  match e with
  | wrapError _ err => Some err
  | _ => None
  end.

(** [errors.Is]: the target is found somewhere along the chain. *)
Fixpoint Is (e target : error) : bool :=
  if decide (e = target) then true
  else match e with
       | wrapError _ err => Is err target
       | _ => false
       end.

End errors.

(** ** Package [net/url] and [net/http] *)

Module url.

(** [url.Values] is [map[string][]string]. *)
Definition Get (v : gmap string (list string)) (key : string) : string :=
  match v !! key with
  | Some (x :: _) => x
  | _ => ""
  end.

End url.

Module http.

Section Types.
Context `{Platform}.

Record Client : Type := {
  Transport : option RoundTripper;
  CheckRedirect : option RedirectPolicy;
  Jar : option CookieJar;
  Timeout : Z
}.

(** [http.DefaultClient = &Client{}]. *)
Definition DefaultClient : Client :=
  {| Transport := None; CheckRedirect := None; Jar := None; Timeout := 0 |}.

(** A request is read only through [r.URL.Query()]; it is represented
    by the [url.Values] that call yields. *)
Record Request : Type := {
  URL_Query : gmap string (list string)
}.

End Types.

End http.

(** ** Package [golang.org/x/oauth2] *)

Module oauth2.

Record EndpointT : Type := {
  AuthURL : string;
  TokenURL : string
}.

Record Config : Type := {
  ClientID : string;
  ClientSecret : string;
  Endpoint : EndpointT;
  RedirectURL : string;
  Scopes : list string
}.

Record Token : Type := {
  AccessToken : string;
  TokenType : string;
  RefreshToken : string;
  Expiry : Z
}.

(** An [AuthCodeOption] sets one parameter of the authorization URL. *)
Inductive AuthCodeOption : Type :=
| SetAuthURLParam (key value : string).

(** The request for offline access, that is for a refresh token. *)
Definition AccessTypeOffline : AuthCodeOption :=
  SetAuthURLParam "access_type" "offline".

Section Types.
Context `{Platform}.

(** A [context.Context] as the library reads it: the value stored under
    the key [oauth2.HTTPClient] (absent, or a possibly nil
    [*http.Client]) on top of everything else the context carries. *)
Record Context : Type := {
  ctx_parent : BaseContext;
  ctx_HTTPClient : option (option http.Client)
}.

(** [context.WithValue(ctx, oauth2.HTTPClient, c)]. *)
Definition WithValue_HTTPClient (ctx : Context) (c : option http.Client) : Context :=
  {| ctx_parent := ctx_parent ctx; ctx_HTTPClient := Some c |}.

(** The methods of [*oauth2.Config] the authenticator delegates to. *)
Class Library := {
  Config__AuthCodeURL : Config -> string -> list AuthCodeOption -> string;
  Config__Exchange :
    Config -> Context -> string -> World -> (Token + errors.error) * World;
  Config__Client : Config -> Context -> option Token -> http.Client;
  Config__TokenSource : Config -> Context -> option Token -> TokenSource
}.

End Types.

End oauth2.

(** ** Package [auth] *)

Module auth.

Import errors.

(** Spotify API endpoints. *)
Definition AuthURL : string := "https://accounts.spotify.com/authorize".
Definition TokenURL : string := "https://accounts.spotify.com/api/token".

(** Common error definitions. *)
Definition ErrAuthFailed : error := errorString "spotify: authentication failed".
Definition ErrNoAccessCode : error := errorString "spotify: no access code received".
Definition ErrStateMismatch : error := errorString "spotify: state verification failed".
Definition ErrMissingClientID : error :=
  errorString "spotify: client ID is required but not provided".
Definition ErrMissingClientSec : error :=
  errorString "spotify: client secret is required but not provided".

Section Authenticator.
Context `{Platform}.

Record Authenticator : Type := {
  config : oauth2.Config;
  client : option http.Client
}.

(** Assignments to single fields of [a.config] and to [a.client]. *)
Definition set_ClientID (id : string) (a : Authenticator) : Authenticator :=
  {| config := {| oauth2.ClientID := id;
                  oauth2.ClientSecret := oauth2.ClientSecret (config a);
                  oauth2.Endpoint := oauth2.Endpoint (config a);
                  oauth2.RedirectURL := oauth2.RedirectURL (config a);
                  oauth2.Scopes := oauth2.Scopes (config a) |};
     client := client a |}.

Definition set_ClientSecret (secret : string) (a : Authenticator) : Authenticator :=
  {| config := {| oauth2.ClientID := oauth2.ClientID (config a);
                  oauth2.ClientSecret := secret;
                  oauth2.Endpoint := oauth2.Endpoint (config a);
                  oauth2.RedirectURL := oauth2.RedirectURL (config a);
                  oauth2.Scopes := oauth2.Scopes (config a) |};
     client := client a |}.

Definition set_RedirectURL (u : string) (a : Authenticator) : Authenticator :=
  {| config := {| oauth2.ClientID := oauth2.ClientID (config a);
                  oauth2.ClientSecret := oauth2.ClientSecret (config a);
                  oauth2.Endpoint := oauth2.Endpoint (config a);
                  oauth2.RedirectURL := u;
                  oauth2.Scopes := oauth2.Scopes (config a) |};
     client := client a |}.

Definition set_Scopes (scopes : list string) (a : Authenticator) : Authenticator :=
  {| config := {| oauth2.ClientID := oauth2.ClientID (config a);
                  oauth2.ClientSecret := oauth2.ClientSecret (config a);
                  oauth2.Endpoint := oauth2.Endpoint (config a);
                  oauth2.RedirectURL := oauth2.RedirectURL (config a);
                  oauth2.Scopes := scopes |};
     client := client a |}.

Definition set_client (c : option http.Client) (a : Authenticator) : Authenticator :=
  {| config := config a; client := c |}.

(** *** Functional options *)

(** An [Option] is a function on a pointer to the authenticator: it
    updates the authenticator it is applied to. *)
Definition Option : Type := Authenticator -> Authenticator.

Definition WithClientID (id : string) : Option :=
  fun a => set_ClientID id a.

Definition WithClientSecret (secret : string) : Option :=
  fun a => set_ClientSecret secret a.

Definition WithRedirectURL (u : string) : Option :=
  fun a => set_RedirectURL u a.

Definition WithScopes (scopes : list string) : Option :=
  fun a => set_Scopes scopes a.

Definition WithHTTPClient (c : option http.Client) : Option :=
  fun a => set_client c a.

Definition WithTimeout (timeout : Z) : Option :=
  fun a =>
    let c := {| http.Transport := None; http.CheckRedirect := None;
                http.Jar := None; http.Timeout := timeout |} in
    WithHTTPClient (Some c) a.

(** The loop [for _, opt := range opts { opt(auth) }]. *)
Definition apply_options (opts : list Option) (a : Authenticator) : Authenticator :=
  fold_left (fun acc opt => opt acc) opts a.

(** *** Construction *)

(** The authenticator [New] builds before it applies the options: the
    Spotify endpoints, the redirect URL, and [http.DefaultClient]. *)
Definition New_initial (redirectURL : string) : Authenticator :=
  let cfg := {| oauth2.ClientID := "";
                oauth2.ClientSecret := "";
                oauth2.Endpoint := {| oauth2.AuthURL := AuthURL;
                                      oauth2.TokenURL := TokenURL |};
                oauth2.RedirectURL := redirectURL;
                oauth2.Scopes := [] |} in
  {| config := cfg; client := Some http.DefaultClient |}.

Definition New (env : gmap string string) (redirectURL : string)
    (opts : list Option) : Authenticator + error :=
  let clientID := os.Getenv env "SPOTIFY_CLIENT_ID" in
  let clientSecret := os.Getenv env "SPOTIFY_CLIENT_SECRET" in
  let auth := New_initial redirectURL in
  let auth := apply_options opts auth in
  let clientID :=
    if decide (oauth2.ClientID (config auth) <> "")
    then oauth2.ClientID (config auth) else clientID in
  let clientSecret :=
    if decide (oauth2.ClientSecret (config auth) <> "")
    then oauth2.ClientSecret (config auth) else clientSecret in
  let auth := set_ClientID clientID auth in
  let auth := set_ClientSecret clientSecret auth in
  if decide (oauth2.ClientID (config auth) = "") then inr ErrMissingClientID
  else if decide (oauth2.ClientSecret (config auth) = "") then inr ErrMissingClientSec
  else inl auth.

(** *** Vocabulary of the properties *)

(** An option that leaves a field of the authenticator as it finds it. *)
Definition keeps {A : Type} (field : Authenticator -> A) (o : Option) : Prop :=
  forall a, field (o a) = field a.

(** The value [New] settles on for a credential: the one the options
    left in the configuration, or the one of the environment when the
    options left none. *)
Definition resolved (explicit fallback : string) : string :=
  if decide (explicit = "") then fallback else explicit.

(** The client [WithTimeout] creates. *)
Definition timeout_client (timeout : Z) : http.Client :=
  {| http.Transport := None; http.CheckRedirect := None;
     http.Jar := None; http.Timeout := timeout |}.

(** *** Methods *)

Context `{!oauth2.Library}.

(** [AuthURL]: the URL, and the authenticator after the call. *)
Definition Authenticator__AuthURL (a : Authenticator) (state : string)
    (scopes : list string) : string * Authenticator :=
  let a := if decide (0 < length scopes)%nat then set_Scopes scopes a else a in
  (oauth2.Config__AuthCodeURL (config a) state [oauth2.AccessTypeOffline], a).

(** [Token]: no field of the authenticator is assigned, so only the
    result and the world after the call are returned. *)
Definition Authenticator__Token (a : Authenticator) (ctx : oauth2.Context)
    (state : string) (r : http.Request) (w : World)
    : (oauth2.Token + error) * World :=
  let values := http.URL_Query r in
  let err := url.Get values "error" in
  if decide (err <> "") then
    (inr (wrapError (Error ErrAuthFailed +:+ ": " +:+ err) ErrAuthFailed), w)
  else
    let code := url.Get values "code" in
    if decide (code = "") then (inr ErrNoAccessCode, w)
    else
      let actualState := url.Get values "state" in
      if decide (actualState <> state) then (inr ErrStateMismatch, w)
      else
        let ctx := oauth2.WithValue_HTTPClient ctx (client a) in
        match oauth2.Config__Exchange (config a) ctx code w with
        | (inr err, w') =>
            (inr (wrapError ("spotify: token exchange failed: " +:+ Error err) err), w')
        | (inl token, w') => (inl token, w')
        end.

Definition Authenticator__Client (a : Authenticator) (ctx : oauth2.Context)
    (token : option oauth2.Token) : http.Client :=
  let ctx := oauth2.WithValue_HTTPClient ctx (client a) in
  oauth2.Config__Client (config a) ctx token.

Definition Authenticator__TokenSource (a : Authenticator) (ctx : oauth2.Context)
    (token : option oauth2.Token) : TokenSource :=
  let ctx := oauth2.WithValue_HTTPClient ctx (client a) in
  oauth2.Config__TokenSource (config a) ctx token.

(** *** A client of the package

    What a program does with an authenticator once it is constructed: a
    sequence of method calls, each on the authenticator and the world the
    previous call left. *)

Inductive Call : Type :=
| CallAuthURL (state : string) (scopes : list string)
| CallToken (ctx : oauth2.Context) (state : string) (r : http.Request)
| CallClient (ctx : oauth2.Context) (token : option oauth2.Token)
| CallTokenSource (ctx : oauth2.Context) (token : option oauth2.Token).

Definition perform (c : Call) (s : Authenticator * World) : Authenticator * World :=
  match c with
  | CallAuthURL state scopes => (snd (Authenticator__AuthURL (fst s) state scopes), snd s)
  | CallToken ctx state r => (fst s, snd (Authenticator__Token (fst s) ctx state r (snd s)))
  | CallClient _ _ => s
  | CallTokenSource _ _ => s
  end.

Definition run (calls : list Call) (s : Authenticator * World) : Authenticator * World :=
  fold_left (fun acc c => perform c acc) calls s.

(** A call that passes explicit scopes to [AuthURL]. *)
Definition explicit_scopes (c : Call) : bool :=
  match c with
  | CallAuthURL _ (_ :: _) => true
  | _ => false
  end.

(** The scopes in force after a sequence of calls: those of the last call
    that passed explicit scopes, or else the ones in force before. *)
Fixpoint scopes_after (calls : list Call) (scopes : list string) : list string :=
  match calls with
  | [] => scopes
  | CallAuthURL _ (scope :: rest) :: calls' => scopes_after calls' (scope :: rest)
  | _ :: calls' => scopes_after calls' scopes
  end.

(** *** The options of the package as data

    An argument list of [New] built from the six constructors of the
    package: which constructor each argument is, and with what value. *)

Inductive Setting : Type :=
| SetClientID (id : string)
| SetClientSecret (secret : string)
| SetRedirectURL (u : string)
| SetScopes (scopes : list string)
| SetHTTPClient (c : option http.Client)
| SetTimeout (timeout : Z).

Definition option_of (s : Setting) : Option :=
  match s with
  | SetClientID id => WithClientID id
  | SetClientSecret secret => WithClientSecret secret
  | SetRedirectURL u => WithRedirectURL u
  | SetScopes scopes => WithScopes scopes
  | SetHTTPClient c => WithHTTPClient c
  | SetTimeout timeout => WithTimeout timeout
  end.

(** The field of the authenticator an option assigns. *)
Inductive Field : Type :=
| FieldClientID
| FieldClientSecret
| FieldRedirectURL
| FieldScopes
| FieldClient.

Definition field_of (s : Setting) : Field :=
  match s with
  | SetClientID _ => FieldClientID
  | SetClientSecret _ => FieldClientSecret
  | SetRedirectURL _ => FieldRedirectURL
  | SetScopes _ => FieldScopes
  | SetHTTPClient _ => FieldClient
  | SetTimeout _ => FieldClient
  end.

End Authenticator.

#[export] Instance Field_eq_dec : EqDecision Field.
Proof. solve_decision. Defined.

End auth.

(** ** The test double of [authenticator_test.go]

    The test replaces the transport of the HTTP client by a mock that
    answers every round trip with status 200 and one JSON token response.
    Here the same double is an instance of the library interface: a world
    that counts the round trips the mock has served, an exchange that
    succeeds through a client carrying the mock transport, and the URL
    builder of the library. *)

Module authenticator_test.

Inductive MockRoundTripper : Type :=
| mockTransport
| DefaultTransport
| oauth2_Transport (source : oauth2.Config * option oauth2.Token)
    (base : MockRoundTripper).

#[local] Instance platform : Platform := {|
  RoundTripper := MockRoundTripper;
  CookieJar := Empty_set;
  RedirectPolicy := Empty_set;
  BaseContext := unit;
  World := nat;
  TokenSource := (oauth2.Config * option oauth2.Token)%type
|}.

(** The token the mocked endpoint describes. *)
Definition tokenResponse : oauth2.Token :=
  {| oauth2.AccessToken := "test-access-token";
     oauth2.TokenType := "Bearer";
     oauth2.RefreshToken := "test-refresh-token";
     oauth2.Expiry := 3600 |}.

(** [url.QueryEscape]: letters, digits and [-_.~] stay, a space becomes a
    plus sign, every other byte becomes a percent sign and two upper-case
    hexadecimal digits. *)
Definition unreserved (c : ascii) : bool :=
  let n := nat_of_ascii c in
  ((97 <=? n) && (n <=? 122) || (65 <=? n) && (n <=? 90) || (48 <=? n) && (n <=? 57)
   || (n =? 45) || (n =? 95) || (n =? 46) || (n =? 126))%nat.

Definition upperhex (n : nat) : ascii :=
  ascii_of_nat (if (n <? 10)%nat then 48 + n else 55 + n).

Fixpoint QueryEscape (s : string) : string :=
  match s with
  | EmptyString => EmptyString
  | String c rest =>
      if (nat_of_ascii c =? 32)%nat then String "+" (QueryEscape rest)
      else if unreserved c then String c (QueryEscape rest)
      else String "%" (String (upperhex (nat_of_ascii c / 16))
             (String (upperhex (nat_of_ascii c mod 16)) (QueryEscape rest)))
  end.

(** [strings.Join]. *)
Fixpoint Join (elems : list string) (sep : string) : string :=
  match elems with
  | [] => ""
  | [x] => x
  | x :: rest => x +:+ sep +:+ Join rest sep
  end.

(** [url.Values.Encode] for values with one entry per key: the pairs in
    the order of their keys, joined by an ampersand. *)
Definition key_le (k1 k2 : string) : Prop := String.leb k1 k2 = true.

#[local] Instance key_le_dec k1 k2 : Decision (key_le k1 k2).
Proof. unfold key_le. apply _. Defined.

Definition Encode (v : gmap string string) : string :=
  let keys := merge_sort key_le (map fst (map_to_list v)) in
  Join (map (fun k => QueryEscape k +:+ "=" +:+ QueryEscape (os.Getenv v k)) keys) "&".

Definition setValue (v : gmap string string) (opt : oauth2.AuthCodeOption)
    : gmap string string :=
  match opt with
  | oauth2.SetAuthURLParam key value => <[key := value]> v
  end.

Definition mock_AuthCodeURL (c : oauth2.Config) (state : string)
    (opts : list oauth2.AuthCodeOption) : string :=
  let v : gmap string string :=
    <["client_id" := oauth2.ClientID c]> {["response_type" := "code"]} in
  let v := if decide (oauth2.RedirectURL c <> "")
           then <["redirect_uri" := oauth2.RedirectURL c]> v else v in
  let v := if decide (0 < length (oauth2.Scopes c))%nat
           then <["scope" := Join (oauth2.Scopes c) " "]> v else v in
  let v := if decide (state <> "") then <["state" := state]> v else v in
  let v := fold_left setValue opts v in
  oauth2.AuthURL (oauth2.Endpoint c) +:+ "?" +:+ Encode v.

(** The exchange reaches the mocked endpoint through the client stored in
    the context; without the mock transport there is no endpoint. *)
Definition mock_Exchange (c : oauth2.Config) (ctx : oauth2.Context) (code : string)
    (w : nat) : (oauth2.Token + errors.error) * nat :=
  match oauth2.ctx_HTTPClient ctx with
  | Some (Some cl) =>
      match http.Transport cl with
      | Some mockTransport => (inl tokenResponse, S w)
      | _ => (inr (errors.foreignError "dial tcp: no network in tests"), w)
      end
  | _ => (inr (errors.foreignError "dial tcp: no network in tests"), w)
  end.

Definition mock_TokenSource (c : oauth2.Config) (ctx : oauth2.Context)
    (t : option oauth2.Token) : oauth2.Config * option oauth2.Token :=
  (c, t).

Definition mock_Client (c : oauth2.Config) (ctx : oauth2.Context)
    (t : option oauth2.Token) : http.Client :=
  let base := match oauth2.ctx_HTTPClient ctx with
              | Some (Some cl) => default DefaultTransport (http.Transport cl)
              | _ => DefaultTransport
              end in
  {| http.Transport := Some (oauth2_Transport (mock_TokenSource c ctx t) base);
     http.CheckRedirect := None; http.Jar := None; http.Timeout := 0 |}.

#[local] Instance library : oauth2.Library := {|
  oauth2.Config__AuthCodeURL := mock_AuthCodeURL;
  oauth2.Config__Exchange := mock_Exchange;
  oauth2.Config__Client := mock_Client;
  oauth2.Config__TokenSource := mock_TokenSource
|}.

(** The fixtures of [TestToken_MockRequest]. *)
Definition env : gmap string string :=
  <["SPOTIFY_CLIENT_ID" := "test-client-id"]>
    {["SPOTIFY_CLIENT_SECRET" := "test-client-secret"]}.

Definition mockClient : http.Client :=
  {| http.Transport := Some mockTransport; http.CheckRedirect := None;
     http.Jar := None; http.Timeout := 0 |}.

Definition Background : oauth2.Context :=
  {| oauth2.ctx_parent := tt; oauth2.ctx_HTTPClient := None |}.

(** The callback [http://localhost/callback?state=test-state&code=test-code]. *)
Definition req : http.Request :=
  {| http.URL_Query := <["state" := ["test-state"]]> {["code" := ["test-code"]]} |}.

(** A callback that carries the provider's error next to a code and the
    state: [?error=access_denied&state=test-state&code=test-code]. *)
Definition denied : http.Request :=
  {| http.URL_Query := <["error" := ["access_denied"]]> (http.URL_Query req) |}.

(** Callbacks without a code, and with a state of another session. *)
Definition no_code : http.Request :=
  {| http.URL_Query := {["state" := ["test-state"]]} |}.

Definition forged : http.Request :=
  {| http.URL_Query := <["state" := ["other-state"]]> {["code" := ["test-code"]]} |}.

(** The authenticator the test constructs. *)
Definition test_auth : auth.Authenticator :=
  {| auth.config :=
       {| oauth2.ClientID := "test-client-id";
          oauth2.ClientSecret := "test-client-secret";
          oauth2.Endpoint := {| oauth2.AuthURL := auth.AuthURL;
                                oauth2.TokenURL := auth.TokenURL |};
          oauth2.RedirectURL := "http://localhost/callback";
          oauth2.Scopes := [] |};
     auth.client := Some mockClient |}.

End authenticator_test.

(** * Properties *)

Import errors auth.

(** ** The test of the repository *)

Section TestToken_MockRequest.
#[local] Existing Instance authenticator_test.platform.
#[local] Existing Instance authenticator_test.library.
Import authenticator_test.

Example test_New :
  New env "http://localhost/callback" [WithHTTPClient (Some mockClient)] = inl test_auth.
Proof. reflexivity. Qed.

Example test_Token :
  Authenticator__Token test_auth Background "test-state" req 0%nat = (inl tokenResponse, 1%nat).
Proof. reflexivity. Qed.

Example test_AuthURL :
  fst (Authenticator__AuthURL test_auth "state123" []) =
  "https://accounts.spotify.com/authorize?access_type=offline&client_id=test-client-id&redirect_uri=http%3A%2F%2Flocalhost%2Fcallback&response_type=code&state=state123".
Proof. vm_compute. reflexivity. Qed.

End TestToken_MockRequest.

(** ** Query parameters and error chains *)

(** [Get] yields the empty string exactly when the key is absent, has no
    value, or has the empty string as its first value. *)
Lemma Get_empty_iff (v : gmap string (list string)) (key : string) :
  url.Get v key = "" <->
  v !! key = None \/ v !! key = Some [] \/ exists rest, v !! key = Some ("" :: rest).
Proof.
  unfold url.Get. destruct (v !! key) as [[|x rest]|] eqn:E.
  - split; auto.
  - split.
    + intros ->. right. right. by exists rest.
    + intros [?|[?|[rest' ?]]]; congruence.
  - split; auto.
Qed.

Lemma Is_refl (e : error) : Is e e = true.
Proof. destruct e; simpl; by rewrite decide_True. Qed.

Lemma Is_wrapError (msg : string) (e target : error) :
  Is e target = true -> Is (wrapError msg e) target = true.
Proof. intros Hin. simpl. case_decide; [done | exact Hin]. Qed.

Section Methods.
Context `{Platform} `{!oauth2.Library}.

(** The three guards of [Token], one lemma each. *)
Lemma Token_error_parameter a ctx state r w :
  url.Get (http.URL_Query r) "error" <> "" ->
  Authenticator__Token a ctx state r w =
  (inr (wrapError ("spotify: authentication failed: " +:+ url.Get (http.URL_Query r) "error")
          ErrAuthFailed), w).
Proof. intros Herr. unfold Authenticator__Token. by rewrite decide_True. Qed.

Lemma Token_no_code a ctx state r w :
  url.Get (http.URL_Query r) "error" = "" ->
  url.Get (http.URL_Query r) "code" = "" ->
  Authenticator__Token a ctx state r w = (inr ErrNoAccessCode, w).
Proof.
  intros Herr Hcode. unfold Authenticator__Token.
  rewrite decide_False by (by intros []). by rewrite decide_True.
Qed.

Lemma Token_state_mismatch a ctx state r w :
  url.Get (http.URL_Query r) "error" = "" ->
  url.Get (http.URL_Query r) "code" <> "" ->
  url.Get (http.URL_Query r) "state" <> state ->
  Authenticator__Token a ctx state r w = (inr ErrStateMismatch, w).
Proof.
  intros Herr Hcode Hstate. unfold Authenticator__Token.
  rewrite decide_False by (by intros []).
  rewrite decide_False by done. by rewrite decide_True.
Qed.

Lemma Token_exchanges a ctx state r w :
  url.Get (http.URL_Query r) "error" = "" ->
  url.Get (http.URL_Query r) "code" <> "" ->
  url.Get (http.URL_Query r) "state" = state ->
  Authenticator__Token a ctx state r w =
  match oauth2.Config__Exchange (config a) (oauth2.WithValue_HTTPClient ctx (client a))
          (url.Get (http.URL_Query r) "code") w with
  | (inr err, w') =>
      (inr (wrapError ("spotify: token exchange failed: " +:+ Error err) err), w')
  | (inl token, w') => (inl token, w')
  end.
Proof.
  intros Herr Hcode Hstate. unfold Authenticator__Token.
  rewrite decide_False by (by intros []).
  rewrite decide_False by done.
  rewrite decide_False by (by intros []). done.
Qed.

End Methods.

(** C1. [Token] checks the query parameters of the callback in a fixed
    order.  A non-empty [error] parameter fails with an error that wraps
    [ErrAuthFailed] and carries the provider's message, whatever the other
    parameters are; otherwise a missing or empty [code] fails with
    [ErrNoAccessCode]; otherwise a [state] different from the expected one
    fails with [ErrStateMismatch]; in these three cases the world is left as
    it was.  Otherwise the call is the exchange of the code through the
    authenticator's client, and a call that changed the world passed all
    three checks. *)
Theorem Token_checks_in_priority_order `{Platform} `{!oauth2.Library}
    (a : Authenticator) (ctx : oauth2.Context) (state : string)
    (r : http.Request) (w : World) :
  let values := http.URL_Query r in
  (url.Get values "error" <> "" ->
     exists e, Authenticator__Token a ctx state r w = (inr e, w)
       /\ Is e ErrAuthFailed = true
       /\ Error e = "spotify: authentication failed: " +:+ url.Get values "error")
  /\ (url.Get values "error" = "" -> url.Get values "code" = "" ->
        Authenticator__Token a ctx state r w = (inr ErrNoAccessCode, w))
  /\ (url.Get values "error" = "" -> url.Get values "code" <> "" ->
        url.Get values "state" <> state ->
        Authenticator__Token a ctx state r w = (inr ErrStateMismatch, w))
  /\ (url.Get values "error" = "" -> url.Get values "code" <> "" ->
        url.Get values "state" = state ->
        Authenticator__Token a ctx state r w =
        match oauth2.Config__Exchange (config a)
                (oauth2.WithValue_HTTPClient ctx (client a)) (url.Get values "code") w with
        | (inr err, w') =>
            (inr (wrapError ("spotify: token exchange failed: " +:+ Error err) err), w')
        | (inl token, w') => (inl token, w')
        end)
  /\ (snd (Authenticator__Token a ctx state r w) <> w ->
        url.Get values "error" = "" /\ url.Get values "code" <> ""
        /\ url.Get values "state" = state).
Proof.
  intros values. subst values.
  split; [|split; [|split; [|split]]].
  - intros Herr. eexists. split; [by apply Token_error_parameter|].
    split; [|done]. apply Is_wrapError, Is_refl.
  - apply Token_no_code.
  - apply Token_state_mismatch.
  - apply Token_exchanges.
  - intros Hw.
    destruct (decide (url.Get (http.URL_Query r) "error" = "")) as [Herr|Herr];
      [|by rewrite (Token_error_parameter a ctx state r w Herr) in Hw].
    destruct (decide (url.Get (http.URL_Query r) "code" = "")) as [Hcode|Hcode];
      [by rewrite (Token_no_code a ctx state r w Herr Hcode) in Hw|].
    destruct (decide (url.Get (http.URL_Query r) "state" = state)) as [Hstate|Hstate];
      [done|].
    by rewrite (Token_state_mismatch a ctx state r w Herr Hcode Hstate) in Hw.
Qed.

(** C2, as amended.  For a callback without an [error] parameter, with a
    non-empty [code] and the expected [state]: when the exchange through the
    authenticator's client yields a token, [Token] succeeds with a token
    that has the same access token and refresh token; when the exchange
    fails, [Token] fails with an error that wraps the cause, and whose
    message is the cause's message after "spotify: token exchange failed: ". *)
Theorem Token_returns_exchanged_token `{Platform} `{!oauth2.Library}
    (a : Authenticator) (ctx : oauth2.Context) (state : string)
    (r : http.Request) (w : World) :
  url.Get (http.URL_Query r) "error" = "" ->
  url.Get (http.URL_Query r) "code" <> "" ->
  url.Get (http.URL_Query r) "state" = state ->
  let exchange :=
    oauth2.Config__Exchange (config a) (oauth2.WithValue_HTTPClient ctx (client a))
      (url.Get (http.URL_Query r) "code") w in
  (forall token w', exchange = (inl token, w') ->
     exists t, Authenticator__Token a ctx state r w = (inl t, w')
       /\ oauth2.AccessToken t = oauth2.AccessToken token
       /\ oauth2.RefreshToken t = oauth2.RefreshToken token)
  /\ (forall cause w', exchange = (inr cause, w') ->
        exists e, Authenticator__Token a ctx state r w = (inr e, w')
          /\ Unwrap e = Some cause
          /\ Is e cause = true
          /\ Error e = "spotify: token exchange failed: " +:+ Error cause).
Proof.
  intros Herr Hcode Hstate exchange. subst exchange.
  rewrite (Token_exchanges a ctx state r w Herr Hcode Hstate). split.
  - intros token w' ->. by exists token.
  - intros cause w' ->. eexists. split; [done|]. split; [done|].
    split; [|done]. apply Is_wrapError, Is_refl.
Qed.


(** ** Authorization URLs *)

Section AuthURL.
Context `{Platform} `{!oauth2.Library}.

Lemma AuthURL_no_scopes a state :
  Authenticator__AuthURL a state [] =
  (oauth2.Config__AuthCodeURL (config a) state [oauth2.AccessTypeOffline], a).
Proof. reflexivity. Qed.

Lemma AuthURL_scopes a state scope scopes :
  Authenticator__AuthURL a state (scope :: scopes) =
  (oauth2.Config__AuthCodeURL (config (set_Scopes (scope :: scopes) a)) state
     [oauth2.AccessTypeOffline],
   set_Scopes (scope :: scopes) a).
Proof.
  unfold Authenticator__AuthURL. rewrite decide_True; [done | simpl; lia].
Qed.

(** A call changes at most the stored scopes. *)
Lemma perform_frame c (s : Authenticator * World) :
  oauth2.ClientID (config (fst (perform c s))) = oauth2.ClientID (config (fst s))
  /\ oauth2.ClientSecret (config (fst (perform c s))) = oauth2.ClientSecret (config (fst s))
  /\ oauth2.Endpoint (config (fst (perform c s))) = oauth2.Endpoint (config (fst s))
  /\ oauth2.RedirectURL (config (fst (perform c s))) = oauth2.RedirectURL (config (fst s))
  /\ client (fst (perform c s)) = client (fst s).
Proof.
  destruct c as [state [|scope scopes]| | |]; simpl; try done;
    by rewrite AuthURL_scopes.
Qed.

Lemma perform_Scopes c (s : Authenticator * World) :
  oauth2.Scopes (config (fst (perform c s))) =
  match c with
  | CallAuthURL _ (scope :: scopes) => scope :: scopes
  | _ => oauth2.Scopes (config (fst s))
  end.
Proof.
  destruct c as [state [|scope scopes]| | |]; simpl; try done;
    by rewrite AuthURL_scopes.
Qed.

Lemma run_snoc calls c (s : Authenticator * World) :
  run (calls ++ [c]) s = perform c (run calls s).
Proof. unfold run. by rewrite fold_left_app. Qed.

Lemma run_frame calls (s : Authenticator * World) :
  oauth2.ClientID (config (fst (run calls s))) = oauth2.ClientID (config (fst s))
  /\ oauth2.ClientSecret (config (fst (run calls s))) = oauth2.ClientSecret (config (fst s))
  /\ oauth2.Endpoint (config (fst (run calls s))) = oauth2.Endpoint (config (fst s))
  /\ oauth2.RedirectURL (config (fst (run calls s))) = oauth2.RedirectURL (config (fst s))
  /\ client (fst (run calls s)) = client (fst s).
Proof.
  induction calls as [|c calls IH] using rev_ind; [done|].
  rewrite run_snoc.
  destruct (perform_frame c (run calls s)) as (-> & -> & -> & -> & ->).
  exact IH.
Qed.

Lemma run_Scopes calls (s : Authenticator * World) :
  oauth2.Scopes (config (fst (run calls s))) =
  scopes_after calls (oauth2.Scopes (config (fst s))).
Proof.
  revert s. induction calls as [|c calls IH]; intros s; [done|].
  change (run (c :: calls) s) with (run calls (perform c s)).
  rewrite IH, perform_Scopes.
  by destruct c as [state [|scope scopes]| | |].
Qed.

Lemma scopes_after_no_explicit calls scopes :
  forallb (fun c => negb (explicit_scopes c)) calls = true ->
  scopes_after calls scopes = scopes.
Proof.
  induction calls as [|c calls IH]; [done|]. simpl.
  intros [Hc Hcalls]%andb_prop.
  destruct c as [state [|scope rest]| | |]; simpl in Hc; try done; by apply IH.
Qed.

End AuthURL.


(** C9.  A call of [AuthURL] without scopes leaves the authenticator, and
    so its stored scopes, as it was, and returns the URL built from the
    stored configuration. *)
Theorem AuthURL_without_scopes_keeps_scopes `{Platform} `{!oauth2.Library}
    (a : Authenticator) (state : string) :
  snd (Authenticator__AuthURL a state []) = a
  /\ oauth2.Scopes (config (snd (Authenticator__AuthURL a state []))) =
     oauth2.Scopes (config a)
  /\ fst (Authenticator__AuthURL a state []) =
     oauth2.Config__AuthCodeURL (config a) state [oauth2.AccessTypeOffline].
Proof. by rewrite AuthURL_no_scopes. Qed.

(** C7.  A non-empty list of scopes passed to [AuthURL] replaces the stored
    scopes.  The change persists: after any further calls, a call of
    [AuthURL] without scopes builds its URL from the scopes most recently
    passed, which are the scopes of the first call as long as no call in
    between passes scopes of its own. *)
Theorem AuthURL_scopes_persist `{Platform} `{!oauth2.Library}
    (a : Authenticator) (w : World) (state : string) (scopes : list string) :
  scopes <> [] ->
  let a1 := snd (Authenticator__AuthURL a state scopes) in
  oauth2.Scopes (config a1) = scopes
  /\ forall (calls : list Call) (state' : string),
       let s := run calls (a1, w) in
       let cfg := config (fst s) in
       Authenticator__AuthURL (fst s) state' [] =
         (oauth2.Config__AuthCodeURL cfg state' [oauth2.AccessTypeOffline], fst s)
       /\ oauth2.Scopes cfg = scopes_after calls scopes
       /\ (forallb (fun c => negb (explicit_scopes c)) calls = true ->
           oauth2.Scopes cfg = scopes).
Proof.
  intros Hscopes a1.
  assert (Ha1 : oauth2.Scopes (config a1) = scopes).
  { subst a1. destruct scopes as [|scope scopes]; [done|]. by rewrite AuthURL_scopes. }
  split; [exact Ha1|]. intros calls state' s cfg.
  assert (Hcfg : oauth2.Scopes cfg = scopes_after calls scopes).
  { subst cfg s. rewrite run_Scopes. simpl. by rewrite Ha1. }
  split; [apply AuthURL_no_scopes|]. split; [exact Hcfg|].
  intros Hcalls. rewrite Hcfg. by apply scopes_after_no_explicit.
Qed.

(** ** Construction *)

Section New.
Context `{Platform}.

Lemma apply_options_app (pre post : list Option) (a : Authenticator) :
  apply_options (pre ++ post) a = apply_options post (apply_options pre a).
Proof. unfold apply_options. apply fold_left_app. Qed.

Lemma apply_options_keeps {A : Type} (field : Authenticator -> A)
    (opts : list Option) (a : Authenticator) :
  Forall (keeps field) opts -> field (apply_options opts a) = field a.
Proof.
  intros Hopts. revert a.
  induction Hopts as [|o opts Ho _ IH]; intros a; [done|].
  change (apply_options (o :: opts) a) with (apply_options opts (o a)).
  by rewrite IH, Ho.
Qed.

(** The field an option sets, after the options that follow it and keep it. *)
Lemma apply_options_last {A : Type} (field : Authenticator -> A)
    (pre post : list Option) (o : Option) (a : Authenticator) :
  Forall (keeps field) post ->
  field (apply_options (pre ++ o :: post) a) = field (o (apply_options pre a)).
Proof.
  intros Hpost. rewrite apply_options_app.
  change (apply_options (o :: post) ?b) with (apply_options post (o b)).
  by apply apply_options_keeps.
Qed.

(** [New] by cases on the resolved credentials. *)
Lemma New_resolved env redirectURL opts :
  let a := apply_options opts (New_initial redirectURL) in
  let id := resolved (oauth2.ClientID (config a)) (os.Getenv env "SPOTIFY_CLIENT_ID") in
  let secret :=
    resolved (oauth2.ClientSecret (config a)) (os.Getenv env "SPOTIFY_CLIENT_SECRET") in
  New env redirectURL opts =
  if decide (id = "") then inr ErrMissingClientID
  else if decide (secret = "") then inr ErrMissingClientSec
  else inl (set_ClientSecret secret (set_ClientID id a)).
Proof.
  intros a id secret. subst id secret. unfold New, resolved. fold a. simpl.
  destruct (decide (oauth2.ClientID (config a) <> "")) as [Hid|Hid],
    (decide (oauth2.ClientID (config a) = "")) as [Hid'|Hid']; try done;
  destruct (decide (oauth2.ClientSecret (config a) <> "")) as [Hsec|Hsec],
    (decide (oauth2.ClientSecret (config a) = "")) as [Hsec'|Hsec']; try done;
  repeat case_decide; done.
Qed.

Lemma New_inl env redirectURL opts auth :
  New env redirectURL opts = inl auth ->
  let a := apply_options opts (New_initial redirectURL) in
  let id := resolved (oauth2.ClientID (config a)) (os.Getenv env "SPOTIFY_CLIENT_ID") in
  let secret :=
    resolved (oauth2.ClientSecret (config a)) (os.Getenv env "SPOTIFY_CLIENT_SECRET") in
  id <> "" /\ secret <> "" /\ auth = set_ClientSecret secret (set_ClientID id a).
Proof.
  rewrite New_resolved. intros Hnew a id secret. fold a id secret in Hnew.
  destruct (decide (id = "")); [done|].
  destruct (decide (secret = "")); [done|]. split; [done|]. split; [done|]. congruence.
Qed.

Lemma keeps_options :
  (forall secret u scopes c timeout,
     Forall (keeps (fun a => oauth2.ClientID (config a)))
       [WithClientSecret secret; WithRedirectURL u; WithScopes scopes;
        WithHTTPClient c; WithTimeout timeout])
  /\ (forall id u scopes c timeout,
        Forall (keeps (fun a => oauth2.ClientSecret (config a)))
          [WithClientID id; WithRedirectURL u; WithScopes scopes;
           WithHTTPClient c; WithTimeout timeout])
  /\ (forall id secret u scopes,
        Forall (keeps client)
          [WithClientID id; WithClientSecret secret; WithRedirectURL u; WithScopes scopes]).
Proof. repeat split; intros; repeat constructor. Qed.

End New.

(** C4.  With the credentials resolved from the configuration the options
    leave and from the environment: an empty client identifier makes [New]
    fail with [ErrMissingClientID], whatever the secret is; a non-empty
    identifier with an empty secret makes it fail with
    [ErrMissingClientSec]; otherwise [New] returns the authenticator the
    options built, holding the resolved credentials. *)
Theorem New_validates_credentials `{Platform}
    (env : gmap string string) (redirectURL : string) (opts : list Option) :
  let a := apply_options opts (New_initial redirectURL) in
  let id := resolved (oauth2.ClientID (config a)) (os.Getenv env "SPOTIFY_CLIENT_ID") in
  let secret :=
    resolved (oauth2.ClientSecret (config a)) (os.Getenv env "SPOTIFY_CLIENT_SECRET") in
  (id = "" -> New env redirectURL opts = inr ErrMissingClientID)
  /\ (id <> "" -> secret = "" -> New env redirectURL opts = inr ErrMissingClientSec)
  /\ (id <> "" -> secret <> "" ->
        New env redirectURL opts = inl (set_ClientSecret secret (set_ClientID id a))).
Proof.
  intros a id secret. rewrite New_resolved. fold a id secret.
  split; [|split].
  - intros Hid. by rewrite decide_True.
  - intros Hid Hsec. rewrite decide_False by done. by rewrite decide_True.
  - intros Hid Hsec. by rewrite !decide_False.
Qed.


(** C10.  [WithTimeout] replaces the client of the authenticator by a new
    client that carries the timeout and nothing else, and leaves the
    configuration alone; a client installed before by [WithHTTPClient] is
    discarded with its transport.  In the arguments of [New], the last of
    the [WithHTTPClient] and [WithTimeout] options decides the client of
    the constructed authenticator: the options of the other kinds leave the
    client alone. *)
Theorem WithTimeout_replaces_client `{Platform} :
  (forall timeout a,
     client (WithTimeout timeout a) = Some (timeout_client timeout)
     /\ config (WithTimeout timeout a) = config a
     /\ http.Transport (timeout_client timeout) = None
     /\ http.CheckRedirect (timeout_client timeout) = None
     /\ http.Jar (timeout_client timeout) = None
     /\ http.Timeout (timeout_client timeout) = timeout)
  /\ (forall c timeout a,
        client (WithTimeout timeout (WithHTTPClient c a)) = Some (timeout_client timeout)
        /\ client (WithHTTPClient c (WithTimeout timeout a)) = c)
  /\ (forall env redirectURL pre post,
        Forall (keeps client) post ->
        (forall c auth,
           New env redirectURL (pre ++ WithHTTPClient c :: post) = inl auth ->
           client auth = c)
        /\ (forall timeout auth,
              New env redirectURL (pre ++ WithTimeout timeout :: post) = inl auth ->
              client auth = Some (timeout_client timeout)))
  /\ (forall id secret u scopes,
        Forall (keeps client)
          [WithClientID id; WithClientSecret secret; WithRedirectURL u; WithScopes scopes]).
Proof.
  split; [done|]. split; [done|]. split; [|apply keeps_options].
  intros env redirectURL pre post Hpost. split.
  - intros c auth (_ & _ & ->)%New_inl. simpl.
    by rewrite (apply_options_last client).
  - intros timeout auth (_ & _ & ->)%New_inl. simpl.
    by rewrite (apply_options_last client).
Qed.

(** C5.  An authenticator that [New] returns has a non-empty client
    identifier and a non-empty client secret.  Every sequence of method
    calls on it leaves identifier, secret, endpoint, redirect URL and
    client as they were; a single call either leaves the authenticator as
    it was, or is a call of [AuthURL] with explicit scopes and then changes
    the stored scopes to those and nothing else. *)
Theorem credentials_nonempty_and_kept `{Platform} `{!oauth2.Library}
    (env : gmap string string) (redirectURL : string) (opts : list Option)
    (auth : Authenticator) :
  New env redirectURL opts = inl auth ->
  oauth2.ClientID (config auth) <> ""
  /\ oauth2.ClientSecret (config auth) <> ""
  /\ (forall (calls : list Call) (w : World),
        let auth' := fst (run calls (auth, w)) in
        oauth2.ClientID (config auth') = oauth2.ClientID (config auth)
        /\ oauth2.ClientSecret (config auth') = oauth2.ClientSecret (config auth)
        /\ oauth2.ClientID (config auth') <> ""
        /\ oauth2.ClientSecret (config auth') <> ""
        /\ oauth2.Endpoint (config auth') = oauth2.Endpoint (config auth)
        /\ oauth2.RedirectURL (config auth') = oauth2.RedirectURL (config auth)
        /\ client auth' = client auth)
  /\ (forall (c : Call) (a : Authenticator) (w : World),
        fst (perform c (a, w)) = a
        \/ exists state scopes,
             c = CallAuthURL state scopes /\ scopes <> []
             /\ fst (perform c (a, w)) = set_Scopes scopes a).
Proof.
  intros (Hid & Hsec & ->)%New_inl.
  split; [exact Hid|]. split; [exact Hsec|]. split.
  - intros calls w. cbv zeta.
    match goal with |- context [run calls ?s] =>
      destruct (run_frame calls s) as (E1 & E2 & E3 & E4 & E5) end.
    simpl in E1, E2, E3, E4, E5. rewrite E1, E2, E3, E4, E5. by simpl.
  - intros c a w. destruct c as [state [|scope scopes]| | |];
      try (left; reflexivity).
    right. exists state, (scope :: scopes).
    split; [done|]. split; [done|].
    change (fst (perform (CallAuthURL state (scope :: scopes)) (a, w)))
      with (snd (Authenticator__AuthURL a state (scope :: scopes))).
    by rewrite AuthURL_scopes.
Qed.

(** ** The properties on the fixtures of the test *)

Section Fixtures.
#[local] Existing Instance authenticator_test.platform.
#[local] Existing Instance authenticator_test.library.
Import authenticator_test.

Lemma Token_checks_in_priority_order_witness :
  (exists e, Authenticator__Token test_auth Background "test-state" denied 0%nat = (inr e, 0%nat)
     /\ Is e ErrAuthFailed = true
     /\ Error e = "spotify: authentication failed: access_denied")
  /\ Authenticator__Token test_auth Background "test-state" no_code 0%nat =
     (inr ErrNoAccessCode, 0%nat)
  /\ Authenticator__Token test_auth Background "test-state" forged 0%nat =
     (inr ErrStateMismatch, 0%nat)
  /\ Authenticator__Token test_auth Background "test-state" req 0%nat =
     (inl tokenResponse, 1%nat).
Proof.
  split; [|split; [|split]].
  - apply (proj1 (Token_checks_in_priority_order
                    test_auth Background "test-state" denied 0%nat)).
    vm_compute. discriminate.
  - apply (proj1 (proj2 (Token_checks_in_priority_order
                           test_auth Background "test-state" no_code 0%nat)));
      reflexivity.
  - apply (proj1 (proj2 (proj2 (Token_checks_in_priority_order
                                  test_auth Background "test-state" forged 0%nat)))).
    + reflexivity.
    + vm_compute. discriminate.
    + vm_compute. discriminate.
  - refine (proj1 (proj2 (proj2 (proj2 (Token_checks_in_priority_order
                                          test_auth Background "test-state" req 0%nat))))
              _ _ _).
    + reflexivity.
    + vm_compute. discriminate.
    + reflexivity.
Defined.

(** A callback with a code, the expected state and an [error] parameter,
    against the endpoint that returns the token: [Token] fails. *)
Lemma Token_fails_on_error_despite_code :
  url.Get (http.URL_Query denied) "code" = "test-code"
  /\ url.Get (http.URL_Query denied) "state" = "test-state"
  /\ oauth2.Config__Exchange (config test_auth)
       (oauth2.WithValue_HTTPClient Background (client test_auth)) "test-code" 0%nat =
     (inl tokenResponse, 1%nat)
  /\ Authenticator__Token test_auth Background "test-state" denied 0%nat =
     (inr (wrapError "spotify: authentication failed: access_denied" ErrAuthFailed), 0%nat).
Proof. repeat split. Qed.

Lemma Token_returns_exchanged_token_witness :
  exists t, Authenticator__Token test_auth Background "test-state" req 0%nat = (inl t, 1%nat)
    /\ oauth2.AccessToken t = "test-access-token"
    /\ oauth2.RefreshToken t = "test-refresh-token".
Proof.
  refine (proj1 (Token_returns_exchanged_token
                   test_auth Background "test-state" req 0%nat _ _ _) tokenResponse 1%nat _).
  - reflexivity.
  - vm_compute. discriminate.
  - reflexivity.
  - reflexivity.
Defined.



Lemma AuthURL_scopes_persist_witness :
  fst (Authenticator__AuthURL
         (fst (run [CallToken Background "test-state" req; CallAuthURL "state456" []]
                 (snd (Authenticator__AuthURL test_auth "state123"
                         ["user-read-email"; "playlist-read-private"]), 0%nat)))
         "state789" []) =
  "https://accounts.spotify.com/authorize?access_type=offline&client_id=test-client-id&redirect_uri=http%3A%2F%2Flocalhost%2Fcallback&response_type=code&scope=user-read-email+playlist-read-private&state=state789".
Proof.
  destruct (AuthURL_scopes_persist test_auth 0%nat "state123"
              ["user-read-email"; "playlist-read-private"]) as [_ Hlater];
    [discriminate|].
  destruct (Hlater [CallToken Background "test-state" req; CallAuthURL "state456" []]
              "state789") as (Hurl & _ & _).
  etransitivity; [exact (f_equal fst Hurl)|]. vm_compute. reflexivity.
Defined.



Lemma New_validates_credentials_witness :
  New ∅ "http://localhost/callback" [] = inr ErrMissingClientID
  /\ New ∅ "http://localhost/callback" [WithClientID "explicit-id"] = inr ErrMissingClientSec
  /\ New env "http://localhost/callback" [WithHTTPClient (Some mockClient)] = inl test_auth.
Proof.
  split; [|split].
  - apply (proj1 (New_validates_credentials ∅ "http://localhost/callback" [])).
    reflexivity.
  - apply (proj1 (proj2 (New_validates_credentials ∅ "http://localhost/callback"
                           [WithClientID "explicit-id"]))).
    + discriminate.
    + reflexivity.
  - apply (proj2 (proj2 (New_validates_credentials env "http://localhost/callback"
                           [WithHTTPClient (Some mockClient)]))).
    + vm_compute. discriminate.
    + vm_compute. discriminate.
Defined.

Lemma credentials_nonempty_and_kept_witness :
  oauth2.ClientID (config test_auth) <> ""
  /\ oauth2.ClientSecret (config test_auth) <> "".
Proof.
  destruct (credentials_nonempty_and_kept env "http://localhost/callback"
              [WithHTTPClient (Some mockClient)] test_auth) as (Hid & Hsecret & _).
  - reflexivity.
  - split; [exact Hid | exact Hsecret].
Defined.

Lemma WithTimeout_replaces_client_witness :
  (forall auth,
     New env "http://localhost/callback"
       ([WithHTTPClient (Some mockClient)] ++ WithTimeout 30 :: [WithScopes []]) = inl auth ->
     client auth = Some (timeout_client 30))
  /\ (forall auth,
        New env "http://localhost/callback"
          ([WithTimeout 30] ++ WithHTTPClient (Some mockClient) :: []) = inl auth ->
        client auth = Some mockClient).
Proof.
  split.
  - intros auth. 
    refine (proj2 (proj1 (proj2 (proj2 WithTimeout_replaces_client))
                     env "http://localhost/callback" [WithHTTPClient (Some mockClient)]
                     [WithScopes []] _) 30%Z auth).
    repeat constructor.
  - intros auth.
    refine (proj1 (proj1 (proj2 (proj2 WithTimeout_replaces_client))
                     env "http://localhost/callback" [WithTimeout 30] [] _)
              (Some mockClient) auth).
    constructor.
Defined.

End Fixtures.

(** * Further properties of the package *)

(** ** Code exchange *)

Section TokenMore.
Context `{Platform} `{!oauth2.Library}.

(** [Token] by cases on its three guards. *)
Lemma Token_cases a ctx state r w :
  let values := http.URL_Query r in
  (url.Get values "error" <> ""
   /\ Authenticator__Token a ctx state r w =
      (inr (wrapError ("spotify: authentication failed: " +:+ url.Get values "error")
              ErrAuthFailed), w))
  \/ (url.Get values "error" = "" /\ url.Get values "code" = ""
      /\ Authenticator__Token a ctx state r w = (inr ErrNoAccessCode, w))
  \/ (url.Get values "error" = "" /\ url.Get values "code" <> ""
      /\ url.Get values "state" <> state
      /\ Authenticator__Token a ctx state r w = (inr ErrStateMismatch, w))
  \/ (url.Get values "error" = "" /\ url.Get values "code" <> ""
      /\ url.Get values "state" = state
      /\ Authenticator__Token a ctx state r w =
         match oauth2.Config__Exchange (config a)
                 (oauth2.WithValue_HTTPClient ctx (client a)) (url.Get values "code") w with
         | (inr err, w') =>
             (inr (wrapError ("spotify: token exchange failed: " +:+ Error err) err), w')
         | (inl token, w') => (inl token, w')
         end).
Proof.
  intros values. subst values.
  destruct (decide (url.Get (http.URL_Query r) "error" = "")) as [Herr|Herr];
    [|left; split; [done | by apply Token_error_parameter]].
  right.
  destruct (decide (url.Get (http.URL_Query r) "code" = "")) as [Hcode|Hcode];
    [left; split; [done|]; split; [done | by apply Token_no_code]|].
  right.
  destruct (decide (url.Get (http.URL_Query r) "state" = state)) as [Hstate|Hstate].
  - right. split; [done|]. split; [done|]. split; [done|]. by apply Token_exchanges.
  - left. split; [done|]. split; [done|]. split; [done|]. by apply Token_state_mismatch.
Qed.

End TokenMore.

(** [Token] returns a token exactly when the callback has no [error]
    parameter, a non-empty [code] and the expected [state], and the
    exchange of that code through the authenticator's client returned the
    token; so no token is ever returned for a state that does not match. *)
Theorem Token_succeeds_iff `{Platform} `{!oauth2.Library}
    (a : Authenticator) (ctx : oauth2.Context) (state : string)
    (r : http.Request) (w w' : World) (token : oauth2.Token) :
  Authenticator__Token a ctx state r w = (inl token, w') <->
  url.Get (http.URL_Query r) "error" = ""
  /\ url.Get (http.URL_Query r) "code" <> ""
  /\ url.Get (http.URL_Query r) "state" = state
  /\ oauth2.Config__Exchange (config a) (oauth2.WithValue_HTTPClient ctx (client a))
       (url.Get (http.URL_Query r) "code") w = (inl token, w').
Proof.
  split.
  - intros Htoken.
    destruct (Token_cases a ctx state r w)
      as [[_ E]|[(_ & _ & E)|[(_ & _ & _ & E)|(Herr & Hcode & Hstate & E)]]];
      rewrite E in Htoken; try discriminate.
    split; [done|]. split; [done|]. split; [done|].
    destruct (oauth2.Config__Exchange _ _ _ w) as [[token'|cause] w1];
      [congruence | discriminate].
  - intros (Herr & Hcode & Hstate & Hexchange).
    rewrite (Token_exchanges a ctx state r w Herr Hcode Hstate).
    by rewrite Hexchange.
Qed.

(** When a guard of [Token] fails, [errors.Is] against the three errors of
    the guards tells which guard it was.  The same holds when the exchange
    fails, as long as its cause matches none of the three. *)
Theorem Token_error_identifies_guard `{Platform} `{!oauth2.Library}
    (a : Authenticator) (ctx : oauth2.Context) (state : string)
    (r : http.Request) (w w' : World) (e : error) :
  Authenticator__Token a ctx state r w = (inr e, w') ->
  (forall cause w1,
     oauth2.Config__Exchange (config a) (oauth2.WithValue_HTTPClient ctx (client a))
       (url.Get (http.URL_Query r) "code") w = (inr cause, w1) ->
     Is cause ErrAuthFailed = false /\ Is cause ErrNoAccessCode = false
     /\ Is cause ErrStateMismatch = false) ->
  (Is e ErrAuthFailed = true <-> url.Get (http.URL_Query r) "error" <> "")
  /\ (Is e ErrNoAccessCode = true <->
      url.Get (http.URL_Query r) "error" = "" /\ url.Get (http.URL_Query r) "code" = "")
  /\ (Is e ErrStateMismatch = true <->
      url.Get (http.URL_Query r) "error" = "" /\ url.Get (http.URL_Query r) "code" <> ""
      /\ url.Get (http.URL_Query r) "state" <> state).
Proof.
  intros He Hforeign.
  destruct (Token_cases a ctx state r w)
    as [[Herr E]|[(Herr & Hcode & E)|[(Herr & Hcode & Hstate & E)|(Herr & Hcode & Hstate & E)]]];
    rewrite E in He.
  - injection He as <- <-. simpl. intuition congruence.
  - injection He as <- <-. simpl. intuition congruence.
  - injection He as <- <-. simpl. intuition congruence.
  - destruct (oauth2.Config__Exchange _ _ _ w) as [[token|cause] w1] eqn:Hexchange;
      [discriminate|].
    injection He as <- <-.
    destruct (Hforeign cause w1 eq_refl) as (H1 & H2 & H3).
    simpl. rewrite H1, H2, H3. intuition congruence.
Qed.

(** [Token] reads three parameters of the callback and, of each, the first
    value: two requests that agree on these get the same answer. *)
Theorem Token_reads_three_parameters `{Platform} `{!oauth2.Library}
    (a : Authenticator) (ctx : oauth2.Context) (state : string)
    (r1 r2 : http.Request) (w : World) :
  url.Get (http.URL_Query r1) "error" = url.Get (http.URL_Query r2) "error" ->
  url.Get (http.URL_Query r1) "code" = url.Get (http.URL_Query r2) "code" ->
  url.Get (http.URL_Query r1) "state" = url.Get (http.URL_Query r2) "state" ->
  Authenticator__Token a ctx state r1 w = Authenticator__Token a ctx state r2 w.
Proof.
  intros Herr Hcode Hstate. unfold Authenticator__Token. cbv zeta.
  by rewrite Herr, Hcode, Hstate.
Qed.

(** A client the caller stored in the context under [oauth2.HTTPClient]
    plays no part: the three methods that take a context replace it by the
    client of the authenticator. *)
Theorem context_client_is_replaced `{Platform} `{!oauth2.Library}
    (a : Authenticator) (ctx1 ctx2 : oauth2.Context) :
  oauth2.ctx_parent ctx1 = oauth2.ctx_parent ctx2 ->
  (forall state r w,
     Authenticator__Token a ctx1 state r w = Authenticator__Token a ctx2 state r w)
  /\ (forall token, Authenticator__Client a ctx1 token = Authenticator__Client a ctx2 token)
  /\ (forall token,
        Authenticator__TokenSource a ctx1 token = Authenticator__TokenSource a ctx2 token).
Proof.
  intros Hparent.
  assert (Hctx : oauth2.WithValue_HTTPClient ctx1 (client a) =
                 oauth2.WithValue_HTTPClient ctx2 (client a)).
  { unfold oauth2.WithValue_HTTPClient. by rewrite Hparent. }
  split; [|split].
  - intros state r w. unfold Authenticator__Token. cbv zeta. by rewrite Hctx.
  - intros token. unfold Authenticator__Client. cbv zeta. by rewrite Hctx.
  - intros token. unfold Authenticator__TokenSource. cbv zeta. by rewrite Hctx.
Qed.

(** Every error [New] or [Token] returns has a message that starts with
    the name of the package's service. *)
Theorem errors_are_prefixed `{Platform} `{!oauth2.Library} :
  (forall env redirectURL opts e,
     New env redirectURL opts = inr e -> String.prefix "spotify: " (Error e) = true)
  /\ (forall a ctx state r w e w',
        Authenticator__Token a ctx state r w = (inr e, w') ->
        String.prefix "spotify: " (Error e) = true).
Proof.
  split.
  - intros env redirectURL opts e. rewrite New_resolved. cbv zeta.
    repeat case_decide; intros [= <-]; reflexivity.
  - intros a ctx state r w e w' He.
    destruct (Token_cases a ctx state r w)
      as [[_ E]|[(_ & _ & E)|[(_ & _ & _ & E)|(_ & _ & _ & E)]]];
      rewrite E in He.
    + by injection He as <- <-.
    + by injection He as <- <-.
    + by injection He as <- <-.
    + destruct (oauth2.Config__Exchange _ _ _ w) as [[token|cause] w1];
        [discriminate|]. by injection He as <- <-.
Qed.

(** ** Options and construction *)

Section OptionsMore.
Context `{Platform}.

(** Options that assign different fields commute. *)
Lemma option_of_commute (s1 s2 : Setting) (a : Authenticator) :
  field_of s1 <> field_of s2 ->
  option_of s1 (option_of s2 a) = option_of s2 (option_of s1 a).
Proof. destruct s1, s2; simpl; intros Hfields; done. Qed.

(** Of two options that assign the same field, the later one decides. *)
Lemma option_of_override (s1 s2 : Setting) (a : Authenticator) :
  field_of s1 = field_of s2 ->
  option_of s2 (option_of s1 a) = option_of s2 a.
Proof. destruct s1, s2; simpl; intros Hfields; done. Qed.

Lemma apply_options_cons (o : Option) (opts : list Option) (a : Authenticator) :
  apply_options (o :: opts) a = apply_options opts (o a).
Proof. reflexivity. Qed.

Lemma apply_options_permutation (args args' : list Setting) :
  Permutation args args' ->
  NoDup (field_of <$> args) ->
  forall a, apply_options (map option_of args) a = apply_options (map option_of args') a.
Proof.
  induction 1 as [|s args args' Hperm IH|s1 s2 args|args1 args2 args3 H12 IH12 H23 IH23];
    intros Hfields a.
  - done.
  - simpl map. rewrite !apply_options_cons. apply IH.
    by apply NoDup_cons_1_2 in Hfields.
  - simpl map. rewrite !apply_options_cons. f_equal.
    apply option_of_commute.
    apply NoDup_cons_1_1 in Hfields. intros Heq. apply Hfields. rewrite Heq. by left.
  - rewrite IH12 by done. apply IH23. by rewrite <- H12.
Qed.

(** An option is dead when a later option assigns the same field. *)
Lemma apply_options_dead (s1 s2 : Setting) (mid post : list Setting) (a : Authenticator) :
  field_of s1 = field_of s2 ->
  apply_options (map option_of (s1 :: mid ++ s2 :: post)) a =
  apply_options (map option_of (mid ++ s2 :: post)) a.
Proof.
  intros Hfields. revert a. induction mid as [|m mid IH]; intros a.
  - simpl map. rewrite !apply_options_cons. by rewrite option_of_override.
  - change (map option_of (s1 :: (m :: mid) ++ s2 :: post))
      with (option_of s1 :: option_of m :: map option_of (mid ++ s2 :: post)).
    change (map option_of ((m :: mid) ++ s2 :: post))
      with (option_of m :: map option_of (mid ++ s2 :: post)).
    rewrite !apply_options_cons.
    destruct (decide (field_of s1 = field_of m)) as [Hsame|Hother].
    + by rewrite option_of_override.
    + rewrite <- option_of_commute by done.
      specialize (IH (option_of m a)).
      simpl map in IH. by rewrite !apply_options_cons in IH.
Qed.

(** [New] depends on its options through the authenticator they build. *)
Lemma New_apply_options env redirectURL opts opts' :
  apply_options opts (New_initial redirectURL) =
  apply_options opts' (New_initial redirectURL) ->
  New env redirectURL opts = New env redirectURL opts'.
Proof. intros Hsame. rewrite !New_resolved. cbv zeta. by rewrite Hsame. Qed.

(** The options of the package leave the endpoint alone. *)
Lemma option_of_keeps_Endpoint (s : Setting) :
  keeps (fun a => oauth2.Endpoint (config a)) (option_of s).
Proof. by destruct s. Qed.

End OptionsMore.

(** [New] reads the environment through the two credential variables
    only, and does not tell a variable that is unset from one that is set
    to the empty string. *)
Theorem New_reads_two_variables `{Platform}
    (env1 env2 : gmap string string) (redirectURL : string) (opts : list Option) :
  (os.Getenv env1 "SPOTIFY_CLIENT_ID" = os.Getenv env2 "SPOTIFY_CLIENT_ID" ->
   os.Getenv env1 "SPOTIFY_CLIENT_SECRET" = os.Getenv env2 "SPOTIFY_CLIENT_SECRET" ->
   New env1 redirectURL opts = New env2 redirectURL opts)
  /\ (forall key,
        New (<[key := ""]> env1) redirectURL opts = New (delete key env1) redirectURL opts).
Proof.
  assert (Hagree : forall e1 e2,
    os.Getenv e1 "SPOTIFY_CLIENT_ID" = os.Getenv e2 "SPOTIFY_CLIENT_ID" ->
    os.Getenv e1 "SPOTIFY_CLIENT_SECRET" = os.Getenv e2 "SPOTIFY_CLIENT_SECRET" ->
    New e1 redirectURL opts = New e2 redirectURL opts).
  { intros e1 e2 Hid Hsecret. rewrite !New_resolved. cbv zeta. by rewrite Hid, Hsecret. }
  split; [apply Hagree|].
  assert (Hget : forall key name,
    os.Getenv (<[key := ""]> env1) name = os.Getenv (delete key env1) name).
  { intros key name. unfold os.Getenv.
    destruct (decide (key = name)) as [->|Hne].
    - by rewrite lookup_insert_eq, lookup_delete_eq.
    - by rewrite lookup_insert_ne, lookup_delete_ne. }
  intros key. apply Hagree; apply Hget.
Qed.

(** The order of the options does not matter as long as no two of them
    assign the same field. *)
Theorem New_option_order_irrelevant `{Platform}
    (env : gmap string string) (redirectURL : string) (args args' : list Setting) :
  NoDup (field_of <$> args) ->
  Permutation args args' ->
  New env redirectURL (map option_of args) = New env redirectURL (map option_of args').
Proof.
  intros Hfields Hperm. apply New_apply_options.
  by apply apply_options_permutation.
Qed.

(** An option has no effect on what [New] returns when a later option
    assigns the same field. *)
Theorem New_earlier_option_is_dead `{Platform}
    (env : gmap string string) (redirectURL : string)
    (pre mid post : list Setting) (s1 s2 : Setting) :
  field_of s1 = field_of s2 ->
  New env redirectURL (map option_of (pre ++ s1 :: mid ++ s2 :: post)) =
  New env redirectURL (map option_of (pre ++ mid ++ s2 :: post)).
Proof.
  intros Hfields. apply New_apply_options.
  rewrite (map_app option_of pre (s1 :: mid ++ s2 :: post)).
  rewrite (map_app option_of pre (mid ++ s2 :: post)).
  rewrite !apply_options_app.
  by apply (apply_options_dead s1 s2 mid post).
Qed.

(** The redirect URL of the constructed authenticator is the argument of
    [New] unless an option assigns it; then it is the value of the last
    such option, the empty string included. *)
Theorem WithRedirectURL_overrides_argument `{Platform}
    (env : gmap string string) (redirectURL : string) :
  (forall opts auth,
     Forall (keeps (fun a => oauth2.RedirectURL (config a))) opts ->
     New env redirectURL opts = inl auth ->
     oauth2.RedirectURL (config auth) = redirectURL)
  /\ (forall pre post u auth,
        Forall (keeps (fun a => oauth2.RedirectURL (config a))) post ->
        New env redirectURL (pre ++ WithRedirectURL u :: post) = inl auth ->
        oauth2.RedirectURL (config auth) = u)
  /\ (forall id secret scopes c timeout,
        Forall (keeps (fun a => oauth2.RedirectURL (config a)))
          [WithClientID id; WithClientSecret secret; WithScopes scopes;
           WithHTTPClient c; WithTimeout timeout]).
Proof.
  split; [|split].
  - intros opts auth Hopts (_ & _ & ->)%New_inl. simpl.
    by rewrite (apply_options_keeps (fun a => oauth2.RedirectURL (config a))).
  - intros pre post u auth Hpost (_ & _ & ->)%New_inl. simpl.
    by rewrite (apply_options_last (fun a => oauth2.RedirectURL (config a))).
  - intros. repeat constructor.
Qed.

(** ** Sequences of calls *)

Section CallsMore.
Context `{Platform} `{!oauth2.Library}.

Lemma set_Scopes_stored (a : Authenticator) :
  set_Scopes (oauth2.Scopes (config a)) a = a.
Proof. by destruct a as [[] ?]. Qed.

Lemma perform_authenticator c (a : Authenticator) (w : World) :
  fst (perform c (a, w)) = set_Scopes (scopes_after [c] (oauth2.Scopes (config a))) a.
Proof.
  destruct c as [state [|scope scopes]| | |]; simpl scopes_after;
    rewrite ?set_Scopes_stored; reflexivity.
Qed.

Lemma scopes_after_cons c calls scopes :
  scopes_after (c :: calls) scopes = scopes_after calls (scopes_after [c] scopes).
Proof. by destruct c as [state [|scope rest]| | |]. Qed.

Lemma scopes_after_nonempty calls scopes :
  scopes <> [] -> scopes_after calls scopes <> [].
Proof.
  revert scopes. induction calls as [|c calls IH]; intros scopes Hscopes; [done|].
  rewrite scopes_after_cons. apply IH.
  by destruct c as [state [|scope rest]| | |].
Qed.

Lemma run_authenticator calls (a : Authenticator) (w : World) :
  fst (run calls (a, w)) = set_Scopes (scopes_after calls (oauth2.Scopes (config a))) a.
Proof.
  revert a w. induction calls as [|c calls IH]; intros a w.
  - simpl. by rewrite set_Scopes_stored.
  - change (run (c :: calls) (a, w)) with (run calls (perform c (a, w))).
    destruct (perform c (a, w)) as [a1 w1] eqn:Hperform.
    assert (Ha1 : a1 = set_Scopes (scopes_after [c] (oauth2.Scopes (config a))) a).
    { rewrite <- (perform_authenticator c a w). by rewrite Hperform. }
    rewrite IH, scopes_after_cons. by subst a1.
Qed.

End CallsMore.

(** After any sequence of calls the authenticator is the one the sequence
    started from, with the scopes of the last call of [AuthURL] that passed
    scopes: nothing an endpoint answers, and no other argument of any
    call, leaves a trace in it. *)
Theorem authenticator_after_calls `{Platform} `{!oauth2.Library}
    (calls : list Call) (a : Authenticator) (w : World) :
  fst (run calls (a, w)) = set_Scopes (scopes_after calls (oauth2.Scopes (config a))) a
  /\ forall w', fst (run calls (a, w')) = fst (run calls (a, w)).
Proof.
  split; [apply run_authenticator|].
  intros w'. by rewrite !run_authenticator.
Qed.

(** A stored scope set that is not empty stays not empty: [AuthURL]
    replaces the scopes only by a non-empty list, and no method clears
    them. *)
Theorem stored_scopes_stay_nonempty `{Platform} `{!oauth2.Library}
    (calls : list Call) (a : Authenticator) (w : World) :
  oauth2.Scopes (config a) <> [] ->
  oauth2.Scopes (config (fst (run calls (a, w)))) <> [].
Proof.
  intros Hscopes. rewrite run_Scopes. by apply scopes_after_nonempty.
Qed.

(** Repeating a call of [AuthURL] changes nothing: the second call returns
    the URL and leaves the authenticator of the first, and so does a call
    without scopes that follows.  Passing scopes to [AuthURL] is the same
    as configuring them with [WithScopes] and calling without scopes. *)
Theorem AuthURL_repeated `{Platform} `{!oauth2.Library}
    (a : Authenticator) (state : string) (scopes : list string) :
  let first := Authenticator__AuthURL a state scopes in
  Authenticator__AuthURL (snd first) state scopes = first
  /\ Authenticator__AuthURL (snd first) state [] = first
  /\ (scopes <> [] ->
      Authenticator__AuthURL (WithScopes scopes a) state [] = first).
Proof.
  destruct scopes as [|scope scopes]; cbv zeta.
  - rewrite AuthURL_no_scopes. simpl snd. rewrite AuthURL_no_scopes.
    split; [done|]. split; [done|]. intros Hscopes. by destruct Hscopes.
  - rewrite AuthURL_scopes. simpl snd. rewrite AuthURL_scopes, !AuthURL_no_scopes.
    split; [done|]. split; [done|]. by intros _.
Qed.

(** The scopes of the last [WithScopes] option are the scopes of the
    constructed authenticator, and a call of [AuthURL] without scopes
    builds its URL from them; without such an option no scope is
    configured. *)
Theorem WithScopes_configures_AuthURL `{Platform} `{!oauth2.Library}
    (env : gmap string string) (redirectURL : string) :
  (forall pre post scopes auth,
     Forall (keeps (fun a => oauth2.Scopes (config a))) post ->
     New env redirectURL (pre ++ WithScopes scopes :: post) = inl auth ->
     oauth2.Scopes (config auth) = scopes
     /\ forall state,
          Authenticator__AuthURL auth state [] =
          (oauth2.Config__AuthCodeURL (config auth) state [oauth2.AccessTypeOffline], auth))
  /\ (forall opts auth,
        Forall (keeps (fun a => oauth2.Scopes (config a))) opts ->
        New env redirectURL opts = inl auth ->
        oauth2.Scopes (config auth) = [])
  /\ (forall id secret u c timeout,
        Forall (keeps (fun a => oauth2.Scopes (config a)))
          [WithClientID id; WithClientSecret secret; WithRedirectURL u;
           WithHTTPClient c; WithTimeout timeout]).
Proof.
  split; [|split].
  - intros pre post scopes auth Hpost (_ & _ & ->)%New_inl. split.
    + simpl. by rewrite (apply_options_last (fun a => oauth2.Scopes (config a))).
    + intros state. apply AuthURL_no_scopes.
  - intros opts auth Hopts (_ & _ & ->)%New_inl. simpl.
    by rewrite (apply_options_keeps (fun a => oauth2.Scopes (config a))).
  - intros. repeat constructor.
Qed.

(** Whatever options of the package [New] is given, the constructed
    authenticator has the two Spotify endpoints, and keeps them through
    every sequence of calls. *)
Theorem New_keeps_Spotify_endpoints `{Platform} `{!oauth2.Library}
    (env : gmap string string) (redirectURL : string) (args : list Setting)
    (auth : Authenticator) :
  New env redirectURL (map option_of args) = inl auth ->
  forall (calls : list Call) (w : World),
    oauth2.Endpoint (config (fst (run calls (auth, w)))) =
    {| oauth2.AuthURL := "https://accounts.spotify.com/authorize";
       oauth2.TokenURL := "https://accounts.spotify.com/api/token" |}.
Proof.
  intros (_ & _ & ->)%New_inl calls w.
  rewrite run_authenticator. simpl.
  rewrite (apply_options_keeps (fun a => oauth2.Endpoint (config a))); [done|].
  apply Forall_map, Forall_forall. intros s _. apply option_of_keeps_Endpoint.
Qed.

(** The client given to [New] by its last client option is the client the
    library is handed by every later call, in the context under
    [oauth2.HTTPClient], whatever the context of the caller held there. *)
Theorem constructed_client_reaches_library `{Platform} `{!oauth2.Library}
    (env : gmap string string) (redirectURL : string) (pre post : list Option)
    (c : option http.Client) (auth : Authenticator) :
  Forall (keeps client) post ->
  New env redirectURL (pre ++ WithHTTPClient c :: post) = inl auth ->
  forall (calls : list Call) (w : World) (ctx : oauth2.Context),
    let a := fst (run calls (auth, w)) in
    let ctx' := {| oauth2.ctx_parent := oauth2.ctx_parent ctx;
                   oauth2.ctx_HTTPClient := Some c |} in
    (forall token,
       Authenticator__Client a ctx token = oauth2.Config__Client (config a) ctx' token)
    /\ (forall token,
          Authenticator__TokenSource a ctx token =
          oauth2.Config__TokenSource (config a) ctx' token)
    /\ (forall state r w1 token w2,
          Authenticator__Token a ctx state r w1 = (inl token, w2) ->
          oauth2.Config__Exchange (config a) ctx'
            (url.Get (http.URL_Query r) "code") w1 = (inl token, w2)).
Proof.
  intros Hpost (_ & _ & ->)%New_inl calls w ctx a ctx'.
  assert (Hclient : client a = c).
  { subst a. rewrite run_authenticator. simpl.
    by rewrite (apply_options_last client). }
  assert (Hctx : oauth2.WithValue_HTTPClient ctx (client a) = ctx').
  { unfold oauth2.WithValue_HTTPClient. by rewrite Hclient. }
  split; [|split].
  - intros token. unfold Authenticator__Client. cbv zeta. by rewrite Hctx.
  - intros token. unfold Authenticator__TokenSource. cbv zeta. by rewrite Hctx.
  - intros state r w1 token w2 Htoken.
    destruct (Token_cases a ctx state r w1)
      as [[_ E]|[(_ & _ & E)|[(_ & _ & _ & E)|(_ & _ & _ & E)]]];
      rewrite E in Htoken; try discriminate.
    rewrite Hctx in Htoken.
    destruct (oauth2.Config__Exchange _ _ _ w1) as [[token'|cause] w1'];
      [congruence | discriminate].
Qed.

(** Without an option that assigns the client, the constructed
    authenticator holds [http.DefaultClient], a client without transport
    and without timeout. *)
Theorem New_default_client `{Platform}
    (env : gmap string string) (redirectURL : string) (opts : list Option)
    (auth : Authenticator) :
  Forall (keeps client) opts ->
  New env redirectURL opts = inl auth ->
  client auth = Some http.DefaultClient
  /\ http.Transport http.DefaultClient = None
  /\ http.Timeout http.DefaultClient = 0%Z.
Proof.
  intros Hopts (_ & _ & ->)%New_inl. split; [|done]. simpl.
  by rewrite (apply_options_keeps client).
Qed.

(** [Token] answers with [ErrStateMismatch] exactly when the callback has
    no [error] parameter, has a code, and its [state] differs from the
    expected one.  A callback without a [state] parameter therefore passes
    the check when the expected state is the empty string. *)
Theorem Token_state_mismatch_iff `{Platform} `{!oauth2.Library}
    (a : Authenticator) (ctx : oauth2.Context) (state : string)
    (r : http.Request) (w : World) :
  (fst (Authenticator__Token a ctx state r w) = inr ErrStateMismatch <->
   url.Get (http.URL_Query r) "error" = "" /\ url.Get (http.URL_Query r) "code" <> ""
   /\ url.Get (http.URL_Query r) "state" <> state)
  /\ (http.URL_Query r !! "state" = None ->
      fst (Authenticator__Token a ctx "" r w) <> inr ErrStateMismatch).
Proof.
  assert (Hiff : forall expected,
    fst (Authenticator__Token a ctx expected r w) = inr ErrStateMismatch <->
    url.Get (http.URL_Query r) "error" = "" /\ url.Get (http.URL_Query r) "code" <> ""
    /\ url.Get (http.URL_Query r) "state" <> expected).
  { intros expected.
    destruct (Token_cases a ctx expected r w)
      as [[Herr E]|[(Herr & Hcode & E)|[(Herr & Hcode & Hstate & E)|(Herr & Hcode & Hstate & E)]]];
      rewrite E.
    - simpl. split; [discriminate | by intros (? & _)].
    - simpl. split; [discriminate | by intros (_ & ? & _)].
    - simpl. by split.
    - destruct (oauth2.Config__Exchange _ _ _ w) as [[token|cause] w1]; simpl;
        (split; [discriminate | by intros (_ & _ & ?)]). }
  split; [apply Hiff|].
  intros Habsent Hmismatch. apply Hiff in Hmismatch as (_ & _ & Hstate).
  apply Hstate. unfold url.Get. by rewrite Habsent.
Qed.

(** ** The further properties on the fixtures of the test *)

Section FixturesMore.
#[local] Existing Instance authenticator_test.platform.
#[local] Existing Instance authenticator_test.library.
Import authenticator_test.

Lemma Token_succeeds_iff_witness :
  Authenticator__Token test_auth Background "test-state" req 0%nat =
  (inl tokenResponse, 1%nat).
Proof.
  apply (proj2 (Token_succeeds_iff test_auth Background "test-state" req
                  0%nat 1%nat tokenResponse)).
  split; [reflexivity|]. split; [vm_compute; discriminate|].
  split; reflexivity.
Defined.

Lemma Token_error_identifies_guard_witness :
  (Is ErrStateMismatch ErrAuthFailed = true <-> url.Get (http.URL_Query forged) "error" <> "")
  /\ (Is ErrStateMismatch ErrNoAccessCode = true <->
      url.Get (http.URL_Query forged) "error" = ""
      /\ url.Get (http.URL_Query forged) "code" = "")
  /\ (Is ErrStateMismatch ErrStateMismatch = true <->
      url.Get (http.URL_Query forged) "error" = ""
      /\ url.Get (http.URL_Query forged) "code" <> ""
      /\ url.Get (http.URL_Query forged) "state" <> "test-state").
Proof.
  refine (Token_error_identifies_guard test_auth Background "test-state" forged
            0%nat 0%nat ErrStateMismatch _ _).
  - reflexivity.
  - intros cause w1 Hexchange. vm_compute in Hexchange. discriminate.
Defined.

Lemma Token_reads_three_parameters_witness :
  Authenticator__Token test_auth Background "test-state"
    {| http.URL_Query :=
         <["utm_source" := ["mail"]]>
           (<["state" := ["test-state"; "other-state"]]> (http.URL_Query req)) |} 0%nat =
  Authenticator__Token test_auth Background "test-state" req 0%nat.
Proof.
  apply (Token_reads_three_parameters test_auth Background "test-state"); reflexivity.
Defined.

Lemma context_client_is_replaced_witness :
  Authenticator__Client test_auth
    {| oauth2.ctx_parent := tt;
       oauth2.ctx_HTTPClient := Some (Some (timeout_client 5)) |} (Some tokenResponse) =
  Authenticator__Client test_auth Background (Some tokenResponse).
Proof.
  refine (proj1 (proj2 (context_client_is_replaced test_auth
                          {| oauth2.ctx_parent := tt;
                             oauth2.ctx_HTTPClient := Some (Some (timeout_client 5)) |}
                          Background _)) (Some tokenResponse)).
  reflexivity.
Defined.

Lemma errors_are_prefixed_witness :
  String.prefix "spotify: " (Error ErrMissingClientID) = true
  /\ String.prefix "spotify: " (Error ErrNoAccessCode) = true.
Proof.
  split.
  - apply (proj1 errors_are_prefixed ∅ "http://localhost/callback" []). reflexivity.
  - apply (proj2 errors_are_prefixed test_auth Background "test-state" no_code
             0%nat ErrNoAccessCode 0%nat).
    reflexivity.
Defined.

Lemma New_reads_two_variables_witness :
  New (<["HOME" := "/root"]> env) "http://localhost/callback" [] =
  New env "http://localhost/callback" [].
Proof.
  apply (proj1 (New_reads_two_variables (<["HOME" := "/root"]> env) env
                  "http://localhost/callback" [])); reflexivity.
Defined.

Lemma New_option_order_irrelevant_witness :
  New env "http://localhost/callback"
    (map option_of [SetScopes ["user-read-email"]; SetTimeout 30; SetClientID "explicit-id"]) =
  New env "http://localhost/callback"
    (map option_of [SetClientID "explicit-id"; SetScopes ["user-read-email"]; SetTimeout 30]).
Proof.
  apply (New_option_order_irrelevant env "http://localhost/callback"
           [SetScopes ["user-read-email"]; SetTimeout 30; SetClientID "explicit-id"]
           [SetClientID "explicit-id"; SetScopes ["user-read-email"]; SetTimeout 30]).
  - apply (bool_decide_unpack _). reflexivity.
  - apply Permutation_sym.
    apply (Permutation_cons_append [SetScopes ["user-read-email"]; SetTimeout 30]).
Defined.

Lemma New_earlier_option_is_dead_witness :
  New env "http://localhost/callback"
    (map option_of ([] ++ SetHTTPClient (Some mockClient) ::
                      [SetClientID "explicit-id"] ++ SetTimeout 30 :: [])) =
  New env "http://localhost/callback"
    (map option_of ([] ++ [SetClientID "explicit-id"] ++ SetTimeout 30 :: [])).
Proof.
  apply (New_earlier_option_is_dead env "http://localhost/callback" []
           [SetClientID "explicit-id"] [] (SetHTTPClient (Some mockClient)) (SetTimeout 30)).
  reflexivity.
Defined.

Lemma WithRedirectURL_overrides_argument_witness :
  oauth2.RedirectURL (config test_auth) = "http://localhost/callback"
  /\ exists auth,
       New env "http://localhost/callback"
         ([WithHTTPClient (Some mockClient)] ++ WithRedirectURL "" :: [WithTimeout 30]) =
         inl auth
       /\ oauth2.RedirectURL (config auth) = "".
Proof.
  split.
  - refine (proj1 (WithRedirectURL_overrides_argument env "http://localhost/callback")
              [WithHTTPClient (Some mockClient)] test_auth _ eq_refl).
    repeat constructor.
  - eexists. split; [reflexivity|].
    refine (proj1 (proj2 (WithRedirectURL_overrides_argument env
                            "http://localhost/callback"))
              [WithHTTPClient (Some mockClient)] [WithTimeout 30] "" _ _ eq_refl).
    repeat constructor.
Defined.

Lemma WithScopes_configures_AuthURL_witness :
  exists auth,
    New env "http://localhost/callback"
      ([] ++ WithScopes ["user-read-email"] :: [WithClientID "explicit-id"]) = inl auth
    /\ oauth2.Scopes (config auth) = ["user-read-email"].
Proof.
  eexists. split; [reflexivity|].
  refine (proj1 (proj1 (WithScopes_configures_AuthURL env "http://localhost/callback")
                   [] [WithClientID "explicit-id"] ["user-read-email"] _ _ eq_refl)).
  repeat constructor.
Defined.

Lemma stored_scopes_stay_nonempty_witness :
  oauth2.Scopes
    (config (fst (run [CallAuthURL "state123" []; CallToken Background "test-state" req]
                    (WithScopes ["user-read-email"] test_auth, 0%nat)))) <> [].
Proof.
  apply (stored_scopes_stay_nonempty
           [CallAuthURL "state123" []; CallToken Background "test-state" req]
           (WithScopes ["user-read-email"] test_auth) 0%nat).
  discriminate.
Defined.

Lemma AuthURL_repeated_witness :
  Authenticator__AuthURL (WithScopes ["user-read-email"] test_auth) "state123" [] =
  Authenticator__AuthURL test_auth "state123" ["user-read-email"].
Proof.
  apply (proj2 (proj2 (AuthURL_repeated test_auth "state123" ["user-read-email"]))).
  discriminate.
Defined.

Lemma New_keeps_Spotify_endpoints_witness :
  oauth2.Endpoint
    (config (fst (run [CallAuthURL "state123" ["user-read-email"]] (test_auth, 0%nat)))) =
  {| oauth2.AuthURL := "https://accounts.spotify.com/authorize";
     oauth2.TokenURL := "https://accounts.spotify.com/api/token" |}.
Proof.
  apply (New_keeps_Spotify_endpoints env "http://localhost/callback"
           [SetHTTPClient (Some mockClient)] test_auth).
  reflexivity.
Defined.

Lemma constructed_client_reaches_library_witness :
  Authenticator__Client
    (fst (run [CallAuthURL "state123" ["user-read-email"]] (test_auth, 0%nat)))
    Background (Some tokenResponse) =
  oauth2.Config__Client
    (config (fst (run [CallAuthURL "state123" ["user-read-email"]] (test_auth, 0%nat))))
    {| oauth2.ctx_parent := tt; oauth2.ctx_HTTPClient := Some (Some mockClient) |}
    (Some tokenResponse).
Proof.
  refine (proj1 (constructed_client_reaches_library env "http://localhost/callback"
                   [] [] (Some mockClient) test_auth _ _
                   [CallAuthURL "state123" ["user-read-email"]] 0%nat Background)
            (Some tokenResponse)).
  - constructor.
  - reflexivity.
Defined.

Lemma New_default_client_witness :
  exists auth,
    New env "http://localhost/callback" [WithScopes ["user-read-email"]] = inl auth
    /\ client auth = Some http.DefaultClient.
Proof.
  eexists. split; [reflexivity|].
  refine (proj1 (New_default_client env "http://localhost/callback"
                   [WithScopes ["user-read-email"]] _ _ eq_refl)).
  repeat constructor.
Defined.

Lemma Token_state_mismatch_iff_witness :
  fst (Authenticator__Token test_auth Background ""
         {| http.URL_Query := {["code" := ["test-code"]]} |} 0%nat) <>
  inr ErrStateMismatch.
Proof.
  apply (proj2 (Token_state_mismatch_iff test_auth Background ""
                  {| http.URL_Query := {["code" := ["test-code"]]} |} 0%nat)).
  reflexivity.
Defined.

End FixturesMore.
